(** * splunk-iot-processor: the Lambda handler that forwards AWS IoT events
      to Splunk's HTTP event collector (src/splunk-iot-processor/index.js).

    The development is a shallow embedding of index.js:
    - JavaScript values with a store of objects, so that the in-place
      write [event.awsRequestId = ...] and the aliasing between the caller's
      event, the record handed to the logger and the value echoed through the
      Lambda callback are visible;
    - the shared [logger] object with its two overridable hooks
      ([eventFormatter], [error]); the closures that index.js assigns to them
      are defunctionalised (a constructor holding the captured variables and
      an [apply_] function holding the body);
    - a state-and-exception monad threading the store, the logger and the
      chronological list of interactions with the outside (console, logger
      API, Lambda callback). *)

From Stdlib Require Import ZArith List Lia.
From stdpp Require Import base option list gmap strings.

Open Scope Z_scope.
Open Scope string_scope.
Open Scope list_scope.

(** ** JavaScript values and objects *)

Definition loc := positive.

(** Events reach a Lambda function deserialised from JSON; arrays are objects
    whose own properties are their indices and ["length"]. *)
Inductive value :=
| VUndefined
| VNull
| VBool (b : bool)
| VNumber (n : Z)
| VString (s : string)
| VObject (l : loc).

#[global] Instance value_eq_dec : EqDecision value.
Proof. solve_decision. Defined.

(** [typeof v], for the values above. *)
Definition typeof (v : value) : string :=
  match v with
  | VUndefined => "undefined"
  | VNull => "object"
  | VBool _ => "boolean"
  | VNumber _ => "number"
  | VString _ => "string"
  | VObject _ => "object"
  end.

(** An object is the list of its own properties in creation order. *)
Definition obj := list (string * value).

Fixpoint get_own (o : obj) (k : string) : option value :=
  match o with
  | [] => None
  | (k', v) :: o' => if String.eqb k' k then Some v else get_own o' k
  end.

Fixpoint has_own (o : obj) (k : string) : bool :=
  match o with
  | [] => false
  | (k', _) :: o' => String.eqb k' k || has_own o' k
  end.

(** [o.k = v]: overwrite the property where it stands, or append it. *)
Fixpoint set_own (o : obj) (k : string) (v : value) : obj :=
  match o with
  | [] => [(k, v)]
  | (k', v') :: o' =>
      if String.eqb k' k then (k', v) :: o' else (k', v') :: set_own o' k v
  end.

(** How many own properties of [o] are named [k]. *)
Fixpoint count_own (o : obj) (k : string) : nat :=
  match o with
  | [] => 0%nat
  | (k', _) :: o' => ((if String.eqb k' k then 1 else 0) + count_own o' k)%nat
  end.

(** ** Errors *)

Inductive js_error :=
| TypeError (msg : string)
| Error (msg : string) (code : option Z).

#[global] Instance js_error_eq_dec : EqDecision js_error.
Proof. solve_decision. Defined.

(** ** The Lambda invocation context (the two fields index.js reads) *)

Record Context := { awsRequestId : string; functionName : string }.

(** ** The logger: configuration, hooks, queue *)

Record Env := { SPLUNK_HEC_URL : option string; SPLUNK_HEC_TOKEN : option string }.

Record Config := {
  url : option string;
  token : option string;
  maxBatchCount : Z;
  maxRetries : Z
}.

(** index.js:26-31 *)
Definition loggerConfig (env : Env) : Config :=
  {| url := SPLUNK_HEC_URL env;
     token := SPLUNK_HEC_TOKEN env;
     maxBatchCount := 0;  (* Manually flush events *)
     maxRetries := 3      (* Retry 3 times *) |}.

(** The Lambda completion callback of an invocation, named by a number. *)
Definition callback_id := nat.

(** Value of [logger.eventFormatter]: the library's own, or the closure of
    index.js:73-80, which captures [context]. *)
Inductive formatter :=
| DefaultFormatter
| LambdaFormatter (context : Context).

(** Value of [logger.error]: the library's own, or the closure of
    index.js:83-86, which captures [callback]. *)
Inductive error_hook :=
| DefaultError
| LambdaError (callback : callback_id).

(** What [logger.send] is given (index.js:47-56). *)
Record LogRecord := { message : value; metadata : obj }.

(** What the library queues for one record: the formatted event and the
    metadata to post with it. *)
Record Body := { body_event : value; body_metadata : obj }.

Record SplunkLogger := {
  config : Config;
  eventFormatter : formatter;
  error : error_hook;
  queue : list Body
}.

(** ** What the collector answers, as the library reports it to the callback
    of [flush]: [(err, resp, body)]. *)

(** The answers considered are those of the collector's protocol: a body,
    when there is one, carries a numeric code. *)
Record ResponseBody := { text : string; code : Z }.

Record FlushResult := {
  err : option js_error;
  resp : option Z;            (* HTTP status of the response, when there is one *)
  body : option ResponseBody
}.

(** ** Interactions with the outside, in the order they happen *)

Inductive log_arg :=
| LStr (s : string)
| LJson (v : value) (own : option obj)   (* JSON.stringify(v): [v] and, for an
                                            object, its properties at that time *)
| LError (e : js_error)
| LPayload (batch : list Body)
| LResponse (b : option ResponseBody).

Inductive effect :=
| ConsoleLog (args : list log_arg)
| SetEventFormatter (context : Context)      (* logger.eventFormatter = ... *)
| SetError (callback : callback_id)          (* logger.error = ... *)
| Send (record : LogRecord)                  (* logger.send(record) *)
| Flush                                      (* logger.flush(cb) *)
| Post (batch : list Body)                   (* the batch the library posts for a
                                                flush; its retries are not shown *)
| Callback (callback : callback_id) (error : option js_error) (result : value).

(** ** The state of the process *)

Record world := {
  heap : gmap loc obj;
  logger : SplunkLogger;
  trace : list effect
}.

(** A location the store does not list holds an object without properties. *)
Definition deref (h : gmap loc obj) (l : loc) : obj := default [] (h !! l).

(** ** State and exceptions *)

Inductive result (A : Type) :=
| Ok (a : A)
| Throw (e : js_error).
Arguments Ok {A} a.
Arguments Throw {A} e.

Definition M (A : Type) : Type := world -> result A * world.

Definition ret {A} (a : A) : M A := fun w => (Ok a, w).

Definition bind {A B} (m : M A) (k : A -> M B) : M B :=
  fun w => match m w with
           | (Ok a, w') => k a w'
           | (Throw e, w') => (Throw e, w')
           end.

Definition throw {A} (e : js_error) : M A := fun w => (Throw e, w).

Declare Scope js_scope.
Delimit Scope js_scope with js.
Notation "x <- c1 ;; c2" := (bind c1 (fun x => c2))
  (at level 100, c1 at next level, right associativity) : js_scope.
Notation "c1 ;; c2" := (bind c1 (fun _ => c2))
  (at level 100, right associativity) : js_scope.
Open Scope js_scope.

Definition get_heap : M (gmap loc obj) := fun w => (Ok (heap w), w).

Definition get_logger : M SplunkLogger := fun w => (Ok (logger w), w).

Definition put_heap (h : gmap loc obj) : M unit :=
  fun w => (Ok tt, {| heap := h; logger := logger w; trace := trace w |}).

Definition put_logger (lg : SplunkLogger) : M unit :=
  fun w => (Ok tt, {| heap := heap w; logger := lg; trace := trace w |}).

Definition emit (e : effect) : M unit :=
  fun w => (Ok tt, {| heap := heap w; logger := logger w; trace := trace w ++ [e] |}).

Definition console_log (args : list log_arg) : M unit := emit (ConsoleLog args).

(** ** index.js:73-80, the body of [logger.eventFormatter] *)

(** [Object.prototype.hasOwnProperty.call(v, k)]: [undefined] and [null]
    cannot be converted to an object; the other primitives are wrapped in an
    object that has no property of the names used here. *)
Definition hasOwnProperty_call (v : value) (k : string) : M bool :=
  match v with
  | VUndefined | VNull =>
      throw (TypeError "Cannot convert undefined or null to object")
  | VObject l => h <- get_heap ;; ret (has_own (deref h l) k)
  | _ => ret false
  end.

(** [v.k = x] for the receivers the formatter can reach the write with. *)
Definition assign_prop (v : value) (k : string) (x : value) : M unit :=
  match v with
  | VUndefined | VNull =>
      throw (TypeError "Cannot set properties of undefined or null")
  | VObject l => h <- get_heap ;; put_heap (<[l := set_own (deref h l) k x]> h)
  | _ => ret tt
  end.

Definition lambda_eventFormatter (context : Context) (event : value) : M value :=
  (if String.eqb (typeof event) "object" then
     has <- hasOwnProperty_call event "awsRequestId" ;;
     if negb has then
       assign_prop event "awsRequestId" (VString (awsRequestId context))
     else ret tt
   else ret tt) ;;
  ret event.

(** ** index.js:83-86, the body of [logger.error] *)

Definition lambda_error (callback : callback_id)
    (error : js_error) (payload : list Body) : M unit :=
  console_log [LStr "error"; LError error; LStr "context"; LPayload payload] ;;
  emit (Callback callback (Some error) VUndefined).

(** Calling whatever [logger.eventFormatter] and [logger.error] hold. The
    library's own hooks are never in effect when the handler submits a record
    (see [handler_hooks_rebound]); they stand here for the formatter that
    returns its argument and the handler that only reports to the console. *)
Definition apply_formatter (f : formatter) (event : value) : M value :=
  match f with
  | DefaultFormatter => ret event
  | LambdaFormatter context => lambda_eventFormatter context event
  end.

Definition apply_error (h : error_hook) (error : js_error) (payload : list Body) : M unit :=
  match h with
  | DefaultError => console_log [LStr "ERROR:"; LError error; LStr "CONTEXT"; LPayload payload]
  | LambdaError callback => lambda_error callback error payload
  end.

(** ** The transport client *)

Module SplunkLogging.

(** Modelled from the spec: the constructor of the splunk-logging client
    (required at index.js:33, not part of the sources). It keeps the
    configuration it is given and starts with its own hooks and an empty
    queue. *)
Definition new (cfg : Config) : SplunkLogger :=
  {| config := cfg; eventFormatter := DefaultFormatter;
     error := DefaultError; queue := [] |}.

(** Modelled from the spec: the error the splunk-logging client reports for
    the outcome of a flush (section 4.2, step 4): the transport-level error
    when there is one, otherwise an error made of the response body when the
    body exists and its status code is not zero. *)
Definition failure (r : FlushResult) : option js_error :=
  match err r with
  | Some e => Some e
  | None =>
      match body r with
      | Some b => if Z.eqb (code b) 0 then None else Some (Error (text b) (Some (code b)))
      | None => None
      end
  end.

(** Modelled from the spec: [logger.send] of the splunk-logging client
    (section 4.2, step 2, and the data flow of section 2). The record's
    message goes through the payload-augmentation hook installed at that
    time and the outcome is put on the send queue with the record's
    metadata; with the batch count 0 of [loggerConfig] nothing is
    transmitted until [flush]. The spec does not say whether the client
    looks at a message before it calls the hook; here every message is
    given to the hook. *)
Definition send (record : LogRecord) : M unit :=
  emit (Send record) ;;
  lg <- get_logger ;;
  ev <- apply_formatter (eventFormatter lg) (message record) ;;
  lg <- get_logger ;;
  put_logger {| config := config lg; eventFormatter := eventFormatter lg;
                error := error lg;
                queue := queue lg ++ [{| body_event := ev;
                                         body_metadata := metadata record |}] |}.

(** Modelled from the spec: [logger.flush] of the splunk-logging client
    (section 4.2, steps 3 and 4, and section 7). The queue is emptied and
    posted as one batch; [r] is what the simulated transport answers once
    its retries are over. A failure is first routed, with the batch that
    failed, to the error hook installed at that time; then the callback of
    [flush] receives [(err, resp, body)]. *)
Definition flush (r : FlushResult) (cb : FlushResult -> M unit) : M unit :=
  emit Flush ;;
  lg <- get_logger ;;
  put_logger {| config := config lg; eventFormatter := eventFormatter lg;
                error := error lg; queue := [] |} ;;
  emit (Post (queue lg)) ;;
  match failure r with
  | Some e => lg' <- get_logger ;; apply_error (error lg') e (queue lg)
  | None => ret tt
  end ;;
  cb r.

End SplunkLogging.

(** ** index.js:71-87, [configureLogger] *)

Definition configureLogger (context : Context) (callback : callback_id) : M unit :=
  lg <- get_logger ;;
  put_logger {| config := config lg; eventFormatter := LambdaFormatter context;
                error := error lg; queue := queue lg |} ;;
  emit (SetEventFormatter context) ;;
  lg <- get_logger ;;
  put_logger {| config := config lg; eventFormatter := eventFormatter lg;
                error := LambdaError callback; queue := queue lg |} ;;
  emit (SetError callback).

(** ** index.js:37-69, [exports.handler] *)

(** [JSON.stringify(event, null, 2)] as the console shows it. *)
Definition stringify (event : value) : M log_arg :=
  h <- get_heap ;;
  ret (LJson event (match event with VObject l => Some (deref h l) | _ => None end)).

(** index.js:47-56, the argument of [logger.send]. *)
Definition outbound_record (event : value) (context : Context) : LogRecord :=
  {| message := event;
     metadata := [ ("host", VString "serverless");
                   ("source", VString ("lambda:" +:+ functionName context));
                   ("sourcetype", VString "httpevent") ] |}.

(** index.js:59-68, the callback given to [logger.flush]. *)
Definition flush_callback (event : value) (callback : callback_id)
    (r : FlushResult) : M unit :=
  if match err r with
     | Some _ => true
     | None => match body r with
               | Some b => negb (Z.eqb (code b) 0)
               | None => false
               end
     end
  then ret tt  (* handled by the pre-configured logger.error *)
  else
    console_log [LStr "Response from Splunk:"; LResponse (body r)] ;;
    emit (Callback callback None event).

(** One invocation; [r] is the answer of the transport to the flush. *)
Definition handler (event : value) (context : Context) (callback : callback_id)
    (r : FlushResult) : M unit :=
  s <- stringify event ;;
  console_log [LStr "Received event:"; s] ;;
  configureLogger context callback ;;
  SplunkLogging.send (outbound_record event context) ;;
  SplunkLogging.flush r (flush_callback event callback).

(** The process right after index.js:35, with the objects of [h] allocated. *)
Definition start (env : Env) (h : gmap loc obj) : world :=
  {| heap := h; logger := SplunkLogging.new (loggerConfig env); trace := [] |}.

(** ** Vocabulary of the statements *)

(** The store after [lambda_eventFormatter context event] returned. *)
Definition formatted_heap (context : Context) (event : value)
    (h : gmap loc obj) : gmap loc obj :=
  match event with
  | VObject l =>
      if has_own (deref h l) "awsRequestId" then h
      else <[l := set_own (deref h l) "awsRequestId"
                    (VString (awsRequestId context))]> h
  | _ => h
  end.

Definition with_heap (w : world) (h : gmap loc obj) : world :=
  {| heap := h; logger := logger w; trace := trace w |}.

(** The first line the handler prints. *)
Definition received (event : value) (h : gmap loc obj) : effect :=
  ConsoleLog [LStr "Received event:";
              LJson event (match event with
                           | VObject l => Some (deref h l)
                           | _ => None
                           end)].

(** The queue entry made of the handler's record. *)
Definition queued (event : value) (context : Context) : Body :=
  {| body_event := event;
     body_metadata := metadata (outbound_record event context) |}.

(** What happens once the transport has answered [r] for [batch]. *)
Definition completion (event : value) (callback : callback_id)
    (r : FlushResult) (batch : list Body) : list effect :=
  match SplunkLogging.failure r with
  | Some e =>
      [ConsoleLog [LStr "error"; LError e; LStr "context"; LPayload batch];
       Callback callback (Some e) VUndefined]
  | None =>
      [ConsoleLog [LStr "Response from Splunk:"; LResponse (body r)];
       Callback callback None event]
  end.

(** The interactions up to and including the call of [logger.send]. *)
Definition submission (event : value) (context : Context)
    (callback : callback_id) (h : gmap loc obj) : list effect :=
  [received event h; SetEventFormatter context; SetError callback;
   Send (outbound_record event context)].

Definition rebound (lg : SplunkLogger) (context : Context)
    (callback : callback_id) (q : list Body) : SplunkLogger :=
  {| config := config lg; eventFormatter := LambdaFormatter context;
     error := LambdaError callback; queue := q |}.

(** Which interactions are calls of a Lambda completion callback, and which
    records were handed to [logger.send]. *)
Definition is_callback (e : effect) : bool :=
  match e with Callback _ _ _ => true | _ => false end.

Definition callbacks (tr : list effect) : list effect := List.filter is_callback tr.

Fixpoint sent (tr : list effect) : list LogRecord :=
  match tr with
  | [] => []
  | Send record :: tr' => record :: sent tr'
  | _ :: tr' => sent tr'
  end.

(** ** Concrete invocations *)

Module Sample.
Definition env : Env :=
  {| SPLUNK_HEC_URL := Some "https://host.com:8088/services/collector";
     SPLUNK_HEC_TOKEN := Some "token" |}.
Definition context : Context :=
  {| awsRequestId := "req-1"; functionName := "iot" |}.
Definition success : FlushResult :=
  {| err := None; resp := Some 200;
     body := Some {| text := "Success"; code := 0 |} |}.
Definition rejected : FlushResult :=
  {| err := None; resp := Some 400;
     body := Some {| text := "Invalid data format"; code := 1 |} |}.
Definition unreachable : FlushResult :=
  {| err := Some (Error "ECONNREFUSED" None); resp := None; body := None |}.
(** Object 1 is [{temp: 3}], object 2 is [{awsRequestId: "mine"}]. *)
Definition store : gmap loc obj :=
  {[ 1%positive := [("temp", VNumber 3)];
     2%positive := [("awsRequestId", VString "mine")] ]}.
Definition w0 : world := start env store.
End Sample.

(** The part of the handler before [logger.send] (index.js:38-41). *)
Definition prepare (event : value) (context : Context) (callback : callback_id) : M unit :=
  s <- stringify event ;;
  console_log [LStr "Received event:"; s] ;;
  configureLogger context callback.

(** ** A process serving invocations one after the other *)

Record Invocation := {
  inv_event : value;
  inv_context : Context;
  inv_callback : callback_id;
  inv_answer : FlushResult
}.

(** The state an invocation leaves behind, whether it returned or threw. *)
Definition invoke (w : world) (i : Invocation) : world :=
  snd (handler (inv_event i) (inv_context i) (inv_callback i) (inv_answer i) w).

Definition serve (invs : list Invocation) (w : world) : world :=
  fold_left invoke invs w.

(** ** Reading the list of interactions *)

(** The batches the library was made to post, in order. *)
Fixpoint posts (tr : list effect) : list (list Body) :=
  match tr with
  | [] => []
  | Post batch :: tr' => batch :: posts tr'
  | _ :: tr' => posts tr'
  end.

(** The completion callbacks that were called, in order. *)
Fixpoint called (tr : list effect) : list callback_id :=
  match tr with
  | [] => []
  | Callback cb _ _ :: tr' => cb :: called tr'
  | _ :: tr' => called tr'
  end.

(** The process after a first invocation whose flush failed: its logger
    holds the hooks of that invocation. *)
Definition after_failed_invocation : world :=
  snd (handler (VNumber 1) {| awsRequestId := "req-0"; functionName := "iot" |}
         3%nat Sample.unreachable Sample.w0).

(** ** Properties of objects *)

Lemma has_own_false_count (o : obj) (k : string) :
  has_own o k = false -> count_own o k = 0%nat.
Proof.
  induction o as [|[k' v'] o IH]; simpl; [reflexivity|].
  destruct (String.eqb k' k); simpl; [discriminate|exact IH].
Qed.

Lemma set_own_fresh (o : obj) (k : string) (v : value) :
  has_own o k = false -> set_own o k v = o ++ [(k, v)].
Proof.
  induction o as [|[k' v'] o IH]; simpl; [reflexivity|].
  destruct (String.eqb k' k); simpl; [discriminate|].
  intros H. now rewrite IH.
Qed.

Lemma has_own_set_own (o : obj) (k : string) (v : value) :
  has_own (set_own o k v) k = true.
Proof.
  induction o as [|[k' v'] o IH]; simpl.
  - now rewrite String.eqb_refl.
  - destruct (String.eqb k' k) eqn:E; simpl; rewrite E; simpl; [reflexivity|exact IH].
Qed.

Lemma get_own_set_own (o : obj) (k : string) (v : value) :
  get_own (set_own o k v) k = Some v.
Proof.
  induction o as [|[k' v'] o IH]; simpl.
  - now rewrite String.eqb_refl.
  - destruct (String.eqb k' k) eqn:E; simpl; rewrite E; [reflexivity|exact IH].
Qed.

Lemma get_own_set_own_other (o : obj) (k k2 : string) (v : value) :
  k <> k2 -> get_own (set_own o k v) k2 = get_own o k2.
Proof.
  intros Hne. induction o as [|[k' v'] o IH]; simpl.
  - destruct (String.eqb_spec k k2); [contradiction|reflexivity].
  - destruct (String.eqb_spec k' k) as [->|Hk]; simpl.
    + destruct (String.eqb_spec k k2); [contradiction|reflexivity].
    + now rewrite IH.
Qed.

Lemma count_own_set_own_fresh (o : obj) (k : string) (v : value) :
  has_own o k = false -> count_own (set_own o k v) k = 1%nat.
Proof.
  induction o as [|[k' v'] o IH]; simpl.
  - now rewrite String.eqb_refl.
  - destruct (String.eqb k' k) eqn:E; simpl; [discriminate|].
    intros H. rewrite E. simpl. now apply IH.
Qed.

Lemma deref_insert (h : gmap loc obj) (l : loc) (o : obj) :
  deref (<[l := o]> h) l = o.
Proof. unfold deref. now rewrite lookup_insert_eq. Qed.

Lemma deref_insert_ne (h : gmap loc obj) (l l' : loc) (o : obj) :
  l <> l' -> deref (<[l := o]> h) l' = deref h l'.
Proof. intros H. unfold deref. now rewrite lookup_insert_ne. Qed.

(** ** What the formatter computes *)

Lemma with_heap_same (w : world) : with_heap w (heap w) = w.
Proof. now destruct w. Qed.

Ltac run_js :=
  unfold bind, ret, throw, get_heap, get_logger, put_heap, put_logger,
    console_log, emit, with_heap; simpl.

Lemma eventFormatter_returns (context : Context) (event : value) (w : world) :
  event <> VNull ->
  lambda_eventFormatter context event w
  = (Ok event, with_heap w (formatted_heap context event (heap w))).
Proof.
  intros Hnull. destruct w as [h lg tr].
  destruct event as [| |b|n|s|l]; try contradiction;
    unfold lambda_eventFormatter, hasOwnProperty_call, assign_prop; run_js;
    try reflexivity.
  destruct (has_own (deref h l) "awsRequestId"); reflexivity.
Qed.

Lemma eventFormatter_null (context : Context) (w : world) :
  lambda_eventFormatter context VNull w
  = (Throw (TypeError "Cannot convert undefined or null to object"), w).
Proof. reflexivity. Qed.

Lemma formatted_heap_idem (c1 c2 : Context) (event : value) (h : gmap loc obj) :
  formatted_heap c2 event (formatted_heap c1 event h) = formatted_heap c1 event h.
Proof.
  destruct event as [| |b|n|s|l]; simpl; try reflexivity.
  destruct (has_own (deref h l) "awsRequestId") eqn:E.
  - now rewrite E.
  - now rewrite deref_insert, has_own_set_own.
Qed.

(** ** What one invocation does *)

Lemma handler_run (event : value) (context : Context) (callback : callback_id)
    (r : FlushResult) (w : world) :
  event <> VNull ->
  handler event context callback r w
  = (Ok tt,
     {| heap := formatted_heap context event (heap w);
        logger := rebound (logger w) context callback [];
        trace := trace w
                 ++ submission event context callback (heap w)
                 ++ [Flush; Post (queue (logger w) ++ [queued event context])]
                 ++ completion event callback r
                      (queue (logger w) ++ [queued event context]) |}).
Proof.
  intros Hnull. destruct w as [h [cfg f eh q] tr].
  destruct r as [[e|] rs [[t c]|]];
    destruct event as [| |b|n|s|l]; try contradiction;
    unfold handler, stringify, configureLogger, SplunkLogging.send,
      SplunkLogging.flush, flush_callback, completion, submission, rebound,
      SplunkLogging.failure, apply_formatter, apply_error, lambda_error,
      lambda_eventFormatter, hasOwnProperty_call, assign_prop;
    run_js;
    try destruct (has_own (deref h l) "awsRequestId"); simpl;
    try destruct (Z.eqb c 0); simpl;
    rewrite <- ?app_assoc; reflexivity.
Qed.

Lemma handler_null (context : Context) (callback : callback_id)
    (r : FlushResult) (w : world) :
  handler VNull context callback r w
  = (Throw (TypeError "Cannot convert undefined or null to object"),
     {| heap := heap w;
        logger := rebound (logger w) context callback (queue (logger w));
        trace := trace w ++ submission VNull context callback (heap w) |}).
Proof.
  destruct w as [h [cfg f eh q] tr].
  unfold handler, stringify, configureLogger, SplunkLogging.send, submission, rebound.
  run_js. rewrite <- ?app_assoc. reflexivity.
Qed.

Lemma sent_app (t1 t2 : list effect) : sent (t1 ++ t2) = sent t1 ++ sent t2.
Proof.
  induction t1 as [|e t1 IH]; simpl; [reflexivity|].
  destruct e; simpl; now rewrite IH.
Qed.

Lemma posts_app (t1 t2 : list effect) : posts (t1 ++ t2) = posts t1 ++ posts t2.
Proof.
  induction t1 as [|e t1 IH]; simpl; [reflexivity|].
  destruct e; simpl; now rewrite IH.
Qed.

(** ** The claims *)

(** C1. When the flush completes without transport error and with a response
    body whose code is 0, the handler returns normally and the completion
    callback of the invocation is called exactly once, with no error and the
    input event as result. (A [null] event never reaches the flush, see
    [handler_null].) *)
Theorem handler_success_echoes_event (event : value) (context : Context)
    (callback : callback_id) (r : FlushResult) (b : ResponseBody) (w : world) :
  event <> VNull -> err r = None -> body r = Some b -> code b = 0 ->
  exists w' new,
    handler event context callback r w = (Ok tt, w') /\
    trace w' = trace w ++ new /\
    callbacks new = [Callback callback None event] /\
    last new = Some (Callback callback None event).
Proof.
  intros Hnull He Hb Hc. rewrite handler_run by assumption.
  eexists. eexists. split; [reflexivity|]. split; [reflexivity|].
  unfold completion, SplunkLogging.failure. rewrite He, Hb, Hc. simpl.
  split; reflexivity.
Qed.

Lemma handler_success_echoes_event_witness :
  exists w' new,
    handler (VObject 1%positive) Sample.context 7%nat Sample.success Sample.w0
    = (Ok tt, w') /\
    trace w' = trace Sample.w0 ++ new /\
    callbacks new = [Callback 7%nat None (VObject 1%positive)] /\
    last new = Some (Callback 7%nat None (VObject 1%positive)).
Proof.
  apply (handler_success_echoes_event (VObject 1%positive) Sample.context 7%nat
           Sample.success {| text := "Success"; code := 0 |} Sample.w0);
    [discriminate | reflexivity | reflexivity | reflexivity].
Defined.

(** C2. When the flush completes without transport error but with a response
    body whose code is not 0, the only call of a completion callback in the
    invocation is the call of the invocation's callback with an error (made
    of the body's text and code) and no result; it is not called with a
    success result. *)
Theorem handler_rejection_reports_error (event : value) (context : Context)
    (callback : callback_id) (r : FlushResult) (b : ResponseBody) (w : world) :
  event <> VNull -> err r = None -> body r = Some b -> code b <> 0 ->
  exists w' new,
    handler event context callback r w = (Ok tt, w') /\
    trace w' = trace w ++ new /\
    callbacks new
    = [Callback callback (Some (Error (text b) (Some (code b)))) VUndefined] /\
    (forall cb v, ~ In (Callback cb None v) new).
Proof.
  intros Hnull He Hb Hc. rewrite handler_run by assumption.
  eexists. eexists. split; [reflexivity|]. split; [reflexivity|].
  unfold completion, SplunkLogging.failure. rewrite He, Hb.
  destruct (Z.eqb_spec (code b) 0) as [E|_]; [contradiction|]. simpl.
  split; [reflexivity|].
  intros cb v Hin. unfold received in Hin.
  repeat (destruct Hin as [Hin|Hin]; [discriminate|]). exact Hin.
Qed.

Lemma handler_rejection_reports_error_witness :
  exists w' new,
    handler (VObject 1%positive) Sample.context 7%nat Sample.rejected Sample.w0
    = (Ok tt, w') /\
    trace w' = trace Sample.w0 ++ new /\
    callbacks new
    = [Callback 7%nat (Some (Error "Invalid data format" (Some 1))) VUndefined] /\
    (forall cb v, ~ In (Callback cb None v) new).
Proof.
  apply (handler_rejection_reports_error (VObject 1%positive) Sample.context 7%nat
           Sample.rejected {| text := "Invalid data format"; code := 1 |} Sample.w0);
    [discriminate | reflexivity | reflexivity | discriminate].
Defined.

(** C3. For an object event without an [awsRequestId] property, the formatter
    returns the same object, which then has exactly one [awsRequestId]
    property, equal to the context's [awsRequestId]; its other properties
    are as before. This object, in this state, is the payload of the record
    the handler posts. *)
Theorem eventFormatter_adds_tracing_id (context : Context) (l : loc) (w : world) :
  has_own (deref (heap w) l) "awsRequestId" = false ->
  exists w',
    lambda_eventFormatter context (VObject l) w = (Ok (VObject l), w') /\
    count_own (deref (heap w') l) "awsRequestId" = 1%nat /\
    get_own (deref (heap w') l) "awsRequestId"
    = Some (VString (awsRequestId context)) /\
    (forall k, k <> "awsRequestId" ->
               get_own (deref (heap w') l) k = get_own (deref (heap w) l) k) /\
    (forall callback r, exists w'',
        handler (VObject l) context callback r w = (Ok tt, w'') /\
        heap w'' = heap w' /\
        In (Post (queue (logger w)
                  ++ [{| body_event := VObject l;
                         body_metadata := metadata (outbound_record (VObject l) context) |}]))
           (trace w'')).
Proof.
  intros Hfresh. eexists. split.
  { apply eventFormatter_returns. discriminate. }
  unfold with_heap, formatted_heap; simpl. rewrite Hfresh, deref_insert.
  split; [now apply count_own_set_own_fresh|].
  split; [apply get_own_set_own|].
  split.
  { intros k Hk. apply get_own_set_own_other. congruence. }
  intros callback r. eexists. split.
  { apply handler_run. discriminate. }
  simpl. rewrite Hfresh. split; [reflexivity|].
  apply in_or_app. right. simpl. do 5 right. left. reflexivity.
Qed.

Lemma eventFormatter_adds_tracing_id_witness :
  exists w',
    lambda_eventFormatter Sample.context (VObject 1%positive) Sample.w0
    = (Ok (VObject 1%positive), w') /\
    count_own (deref (heap w') 1%positive) "awsRequestId" = 1%nat /\
    get_own (deref (heap w') 1%positive) "awsRequestId" = Some (VString "req-1") /\
    (forall k, k <> "awsRequestId" ->
               get_own (deref (heap w') 1%positive) k
               = get_own (deref (heap Sample.w0) 1%positive) k) /\
    (forall callback r, exists w'',
        handler (VObject 1%positive) Sample.context callback r Sample.w0 = (Ok tt, w'') /\
        heap w'' = heap w' /\
        In (Post (queue (logger Sample.w0)
                  ++ [{| body_event := VObject 1%positive;
                         body_metadata :=
                           metadata (outbound_record (VObject 1%positive) Sample.context) |}]))
           (trace w'')).
Proof.
  apply (eventFormatter_adds_tracing_id Sample.context 1%positive Sample.w0).
  reflexivity.
Defined.

(** C4. For an object event that has an [awsRequestId] property, the formatter
    returns the same object and changes nothing, so the property keeps its
    value. For every event, formatting the outcome of the formatter again,
    with the same or another context, is the same as formatting once. *)
Theorem eventFormatter_idempotent (context : Context) (l : loc) (w : world) :
  has_own (deref (heap w) l) "awsRequestId" = true ->
  lambda_eventFormatter context (VObject l) w = (Ok (VObject l), w) /\
  (forall c1 c2 event w1,
      (v <- lambda_eventFormatter c1 event ;; lambda_eventFormatter c2 v) w1
      = lambda_eventFormatter c1 event w1).
Proof.
  intros Hown. split.
  - rewrite eventFormatter_returns by discriminate.
    simpl. rewrite Hown. now rewrite with_heap_same.
  - intros c1 c2 event w1. unfold bind at 1.
    destruct (value_eq_dec event VNull) as [->|Hnull].
    + reflexivity.
    + rewrite eventFormatter_returns by assumption.
      rewrite eventFormatter_returns by assumption.
      unfold with_heap; simpl. now rewrite formatted_heap_idem.
Qed.

Lemma eventFormatter_idempotent_witness :
  lambda_eventFormatter Sample.context (VObject 2%positive) Sample.w0
  = (Ok (VObject 2%positive), Sample.w0) /\
  (forall c1 c2 event w1,
      (v <- lambda_eventFormatter c1 event ;; lambda_eventFormatter c2 v) w1
      = lambda_eventFormatter c1 event w1).
Proof.
  apply (eventFormatter_idempotent Sample.context 2%positive Sample.w0).
  reflexivity.
Defined.

(** Events that are neither objects nor [null] come back as they are and
    nothing is written. *)
Lemma eventFormatter_scalar (context : Context) (event : value) (w : world) :
  typeof event <> "object" ->
  lambda_eventFormatter context event w = (Ok event, w).
Proof.
  intros Hty. destruct w as [h lg tr].
  destruct event; try reflexivity; now contradiction Hty.
Qed.

(** C5, at the event [null]: it is not an object, yet the formatter does not
    return it; the has-own-property check throws, and [logger.send] queues
    nothing. *)
Theorem eventFormatter_null_not_forwarded :
  lambda_eventFormatter Sample.context VNull Sample.w0 <> (Ok VNull, Sample.w0) /\
  lambda_eventFormatter Sample.context VNull Sample.w0
  = (Throw (TypeError "Cannot convert undefined or null to object"), Sample.w0) /\
  queue (logger (snd ((configureLogger Sample.context 7%nat ;;
                       SplunkLogging.send (outbound_record VNull Sample.context))
                        Sample.w0))) = [].
Proof. split; [discriminate|]. split; reflexivity. Qed.

(** C6. The record the handler hands to [logger.send] has host
    ["serverless"], sourcetype ["httpevent"], source ["lambda:"] followed by
    the function's name, and neither time nor index; whatever the event, the
    state and the transport's answer, it is the one record the invocation
    sends. *)
Theorem outbound_metadata_fixed (event : value) (context : Context)
    (callback : callback_id) (r : FlushResult) (w : world) :
  let m := metadata (outbound_record event context) in
  get_own m "host" = Some (VString "serverless") /\
  get_own m "sourcetype" = Some (VString "httpevent") /\
  get_own m "source" = Some (VString ("lambda:" +:+ functionName context)) /\
  get_own m "time" = None /\
  get_own m "index" = None /\
  message (outbound_record event context) = event /\
  sent (trace (snd (handler event context callback r w)))
  = sent (trace w) ++ [outbound_record event context].
Proof.
  simpl. repeat (split; [reflexivity|]).
  destruct (value_eq_dec event VNull) as [->|Hnull].
  - rewrite handler_null. simpl. rewrite sent_app. reflexivity.
  - rewrite handler_run by assumption. simpl. rewrite sent_app. simpl.
    f_equal. unfold completion.
    destruct (SplunkLogging.failure r); reflexivity.
Qed.

(** The hooks a previous invocation (or the library) left on the shared
    logger have no influence on an invocation. *)
Lemma handler_hooks_rebound (event : value) (context : Context)
    (callback : callback_id) (r : FlushResult) (w : world)
    (f : formatter) (eh : error_hook) :
  handler event context callback r
    {| heap := heap w;
       logger := {| config := config (logger w); eventFormatter := f;
                    error := eh; queue := queue (logger w) |};
       trace := trace w |}
  = handler event context callback r w.
Proof.
  destruct (value_eq_dec event VNull) as [->|Hnull].
  - now rewrite !handler_null.
  - now rewrite !handler_run by assumption.
Qed.

Lemma handler_prepare (event : value) (context : Context)
    (callback : callback_id) (r : FlushResult) (w : world) :
  handler event context callback r w
  = (prepare event context callback ;;
     SplunkLogging.send (outbound_record event context) ;;
     SplunkLogging.flush r (flush_callback event callback)) w.
Proof.
  unfold handler, prepare, bind, stringify, get_heap, ret. simpl. reflexivity.
Qed.

Lemma prepare_run (event : value) (context : Context)
    (callback : callback_id) (w : world) :
  prepare event context callback w
  = (Ok tt,
     {| heap := heap w;
        logger := rebound (logger w) context callback (queue (logger w));
        trace := trace w ++ [received event (heap w); SetEventFormatter context;
                             SetError callback] |}).
Proof.
  destruct w as [h [cfg f eh q] tr].
  unfold prepare, stringify, configureLogger, rebound. run_js.
  rewrite <- ?app_assoc. reflexivity.
Qed.

(** C7. In every invocation both hooks are assigned before [logger.send] is
    called: the state in which the record is submitted holds the formatter
    and the error handler of this invocation, and the assignments precede the
    only call of [logger.send] in the list of interactions. When the flush
    fails (transport error, or a body with a code other than 0), the error
    and the batch that failed are printed and then the invocation's callback
    is called with that error; whenever a callback is called with an error,
    the interaction just before it is that print. *)
Theorem hooks_installed_then_error_logged (event : value) (context : Context)
    (callback : callback_id) (r : FlushResult) (w : world) :
  exists w1 after,
    prepare event context callback w = (Ok tt, w1) /\
    eventFormatter (logger w1) = LambdaFormatter context /\
    error (logger w1) = LambdaError callback /\
    handler event context callback r w
    = (SplunkLogging.send (outbound_record event context) ;;
       SplunkLogging.flush r (flush_callback event callback)) w1 /\
    trace (snd (handler event context callback r w))
    = trace w ++ [received event (heap w); SetEventFormatter context;
                  SetError callback; Send (outbound_record event context)]
              ++ after /\
    sent after = [] /\
    (forall e, event <> VNull -> SplunkLogging.failure r = Some e ->
       after = [Flush; Post (queue (logger w) ++ [queued event context]);
                ConsoleLog [LStr "error"; LError e; LStr "context";
                            LPayload (queue (logger w) ++ [queued event context])];
                Callback callback (Some e) VUndefined]) /\
    (forall t1 t2 cb e v,
       after = t1 ++ Callback cb (Some e) v :: t2 ->
       cb = callback /\
       exists t0 payload,
         t1 = t0 ++ [ConsoleLog [LStr "error"; LError e; LStr "context";
                                 LPayload payload]]).
Proof.
  pose proof (prepare_run event context callback w) as Hp.
  exists (snd (prepare event context callback w)).
  exists (match event with
          | VNull => []
          | _ => [Flush; Post (queue (logger w) ++ [queued event context])]
                 ++ completion event callback r
                      (queue (logger w) ++ [queued event context])
          end).
  split; [now rewrite Hp|].
  split; [now rewrite Hp|].
  split; [now rewrite Hp|].
  split.
  { rewrite handler_prepare. unfold bind at 1. now rewrite Hp. }
  clear Hp. destruct (value_eq_dec event VNull) as [->|Hnull].
  - rewrite handler_null. unfold submission. simpl.
    split; [reflexivity|].
    split; [reflexivity|]. split; [congruence|].
    intros t1 t2 cb e v H. now destruct t1.
  - rewrite handler_run by assumption.
    replace (match event with
             | VNull => []
             | _ => [Flush; Post (queue (logger w) ++ [queued event context])]
                    ++ completion event callback r
                         (queue (logger w) ++ [queued event context])
             end)
      with ([Flush; Post (queue (logger w) ++ [queued event context])]
            ++ completion event callback r
                 (queue (logger w) ++ [queued event context]))
      by (destruct event; [reflexivity|contradiction|reflexivity..]).
    split; [reflexivity|].
    unfold completion.
    destruct (SplunkLogging.failure r) as [e0|]; simpl.
    + split; [reflexivity|]. split.
      { intros e _ He. now injection He as ->. }
      intros t1 t2 cb e v H.
      do 2 (destruct t1 as [|? t1]; [discriminate H|];
            injection H as <- H).
      destruct t1 as [|? t1]; [discriminate H|].
      injection H as <- H.
      destruct t1 as [|? t1].
      * injection H as <- <- <- <-. split; [reflexivity|].
        eexists [_; _]. eexists. reflexivity.
      * injection H as _ H. now destruct t1.
    + split; [reflexivity|]. split; [discriminate|].
      intros t1 t2 cb e v H.
      do 3 (destruct t1 as [|? t1]; [discriminate H|];
            injection H as <- H).
      destruct t1 as [|? t1]; [discriminate H|].
      injection H as _ H. now destruct t1.
Qed.

Lemma hooks_installed_then_error_logged_witness :
  exists w1 after,
    prepare (VObject 1%positive) Sample.context 7%nat Sample.w0 = (Ok tt, w1) /\
    eventFormatter (logger w1) = LambdaFormatter Sample.context /\
    error (logger w1) = LambdaError 7%nat /\
    handler (VObject 1%positive) Sample.context 7%nat Sample.unreachable Sample.w0
    = (SplunkLogging.send (outbound_record (VObject 1%positive) Sample.context) ;;
       SplunkLogging.flush Sample.unreachable
         (flush_callback (VObject 1%positive) 7%nat)) w1 /\
    trace (snd (handler (VObject 1%positive) Sample.context 7%nat
                  Sample.unreachable Sample.w0))
    = trace Sample.w0
      ++ [received (VObject 1%positive) (heap Sample.w0);
          SetEventFormatter Sample.context; SetError 7%nat;
          Send (outbound_record (VObject 1%positive) Sample.context)]
      ++ after /\
    sent after = [] /\
    (forall e, VObject 1%positive <> VNull ->
       SplunkLogging.failure Sample.unreachable = Some e ->
       after = [Flush;
                Post (queue (logger Sample.w0)
                      ++ [queued (VObject 1%positive) Sample.context]);
                ConsoleLog [LStr "error"; LError e; LStr "context";
                            LPayload (queue (logger Sample.w0)
                                      ++ [queued (VObject 1%positive) Sample.context])];
                Callback 7%nat (Some e) VUndefined]) /\
    (forall t1 t2 cb e v,
       after = t1 ++ Callback cb (Some e) v :: t2 ->
       cb = 7%nat /\
       exists t0 payload,
         t1 = t0 ++ [ConsoleLog [LStr "error"; LError e; LStr "context";
                                 LPayload payload]]).
Proof.
  apply (hooks_installed_then_error_logged (VObject 1%positive) Sample.context
           7%nat Sample.unreachable Sample.w0).
Defined.

(** ** Invariants of a process serving invocations *)

Lemma invoke_config (w : world) (i : Invocation) :
  config (logger (invoke w i)) = config (logger w).
Proof.
  unfold invoke. destruct (value_eq_dec (inv_event i) VNull) as [E|E].
  - rewrite E, handler_null. reflexivity.
  - rewrite handler_run by assumption. reflexivity.
Qed.

Lemma invoke_queue (w : world) (i : Invocation) :
  queue (logger w) = [] -> queue (logger (invoke w i)) = [].
Proof.
  intros Hq. unfold invoke.
  destruct (value_eq_dec (inv_event i) VNull) as [E|E].
  - rewrite E, handler_null. exact Hq.
  - rewrite handler_run by assumption. reflexivity.
Qed.

Lemma serve_invariant (invs : list Invocation) (w : world) :
  queue (logger w) = [] ->
  config (logger (serve invs w)) = config (logger w) /\
  queue (logger (serve invs w)) = [].
Proof.
  revert w. induction invs as [|i invs IH]; intros w Hq; simpl.
  - split; [reflexivity|exact Hq].
  - destruct (IH (invoke w i) (invoke_queue w i Hq)) as [Hc Hq'].
    split; [|exact Hq']. now rewrite Hc, invoke_config.
Qed.

(** C8, as index.js has it. The configuration the logger is built with has a
    retry count of 3 and a batch count of 0: the library sends nothing on its
    own and the handler flushes by hand. No invocation changes it, and after
    any number of invocations nothing is left on the queue. *)
Theorem loggerConfig_fixed_policy (env : Env) (h : gmap loc obj)
    (invs : list Invocation) :
  maxRetries (loggerConfig env) = 3 /\
  maxBatchCount (loggerConfig env) = 0 /\
  config (logger (serve invs (start env h))) = loggerConfig env /\
  queue (logger (serve invs (start env h))) = [].
Proof.
  split; [reflexivity|]. split; [reflexivity|].
  apply (serve_invariant invs (start env h)). reflexivity.
Qed.

(** C8, as stated, fails: the batch count of the configuration is not 1. *)
Lemma loggerConfig_batch_count_not_one :
  ~ (maxRetries (loggerConfig Sample.env) = 3 /\
     maxBatchCount (loggerConfig Sample.env) = 1).
Proof. intros [_ H]. discriminate H. Qed.

(** C9. On the event [null], whose [typeof] is ["object"], the
    has-own-property check of the formatter throws a TypeError instead of
    returning the event. The handler does not complete normally on a [null]
    event: it throws out of [logger.send]; the record is not queued, nothing
    is flushed or posted, no completion callback is called and the store is
    untouched. (Which exception leaves the handler is not stated: it depends
    on whether the client inspects the message before it calls the hook.) *)
Theorem handler_null_event_throws (context : Context) (callback : callback_id)
    (r : FlushResult) (w : world) :
  typeof VNull = "object" /\
  hasOwnProperty_call VNull "awsRequestId" w
  = (Throw (TypeError "Cannot convert undefined or null to object"), w) /\
  lambda_eventFormatter context VNull w
  = (Throw (TypeError "Cannot convert undefined or null to object"), w) /\
  exists e w',
    handler VNull context callback r w = (Throw e, w') /\
    heap w' = heap w /\
    queue (logger w') = queue (logger w) /\
    trace w' = trace w ++ [received VNull (heap w); SetEventFormatter context;
                           SetError callback;
                           Send (outbound_record VNull context)] /\
    callbacks (trace w') = callbacks (trace w) /\
    posts (trace w') = posts (trace w).
Proof.
  split; [reflexivity|]. split; [reflexivity|]. split; [reflexivity|].
  eexists. eexists. split; [apply handler_null|]. simpl.
  repeat (split; [reflexivity|]).
  split.
  - unfold callbacks. rewrite List.filter_app. simpl. now rewrite app_nil_r.
  - rewrite posts_app. simpl. now rewrite app_nil_r.
Qed.

(** C10. The formatter writes into the caller's object. For an object event
    without an [awsRequestId] property and a successful flush, the callback
    receives the very object that came in, and that object now has the
    [awsRequestId] property appended to the properties it came with; no
    other object of the store has changed. *)
Theorem handler_echo_is_mutated_event (context : Context) (l : loc)
    (callback : callback_id) (r : FlushResult) (b : ResponseBody) (w : world) :
  has_own (deref (heap w) l) "awsRequestId" = false ->
  err r = None -> body r = Some b -> code b = 0 ->
  exists w' new,
    handler (VObject l) context callback r w = (Ok tt, w') /\
    trace w' = trace w ++ new /\
    last new = Some (Callback callback None (VObject l)) /\
    deref (heap w') l
    = deref (heap w) l ++ [("awsRequestId", VString (awsRequestId context))] /\
    deref (heap w') l <> deref (heap w) l /\
    (forall l', l' <> l -> heap w' !! l' = heap w !! l').
Proof.
  intros Hfresh He Hb Hc. rewrite handler_run by discriminate.
  eexists. eexists. split; [reflexivity|]. split; [reflexivity|].
  unfold completion, SplunkLogging.failure. rewrite He, Hb, Hc. simpl.
  rewrite Hfresh, deref_insert, set_own_fresh by assumption.
  split; [reflexivity|]. split; [reflexivity|]. split.
  - intros Heq. apply (f_equal (@length _)) in Heq.
    rewrite length_app in Heq. simpl in Heq. lia.
  - intros l' Hne. now rewrite lookup_insert_ne.
Qed.

Lemma handler_echo_is_mutated_event_witness :
  exists w' new,
    handler (VObject 1%positive) Sample.context 7%nat Sample.success Sample.w0
    = (Ok tt, w') /\
    trace w' = trace Sample.w0 ++ new /\
    last new = Some (Callback 7%nat None (VObject 1%positive)) /\
    deref (heap w') 1%positive
    = deref (heap Sample.w0) 1%positive ++ [("awsRequestId", VString "req-1")] /\
    deref (heap w') 1%positive <> deref (heap Sample.w0) 1%positive /\
    (forall l', l' <> 1%positive -> heap w' !! l' = heap Sample.w0 !! l').
Proof.
  apply (handler_echo_is_mutated_event Sample.context 1%positive 7%nat
           Sample.success {| text := "Success"; code := 0 |} Sample.w0);
    reflexivity.
Defined.

(** ** Further properties of index.js *)

Lemma has_own_false_get (o : obj) (k : string) :
  has_own o k = false -> get_own o k = None.
Proof.
  induction o as [|[k' v'] o IH]; simpl; [reflexivity|].
  destruct (String.eqb k' k); simpl; [discriminate|exact IH].
Qed.

(** X1. A transport error decides the outcome whatever the response body
    says (a body with code 0 included): the error and the batch are printed,
    then the invocation's callback is called with that very error and no
    result; no response is printed and the event is not echoed. *)
Theorem handler_transport_error_reported (event : value) (context : Context)
    (callback : callback_id) (r : FlushResult) (e : js_error) (w : world) :
  event <> VNull -> err r = Some e ->
  exists w',
    handler event context callback r w = (Ok tt, w') /\
    trace w'
    = trace w
      ++ submission event context callback (heap w)
      ++ [Flush; Post (queue (logger w) ++ [queued event context]);
          ConsoleLog [LStr "error"; LError e; LStr "context";
                      LPayload (queue (logger w) ++ [queued event context])];
          Callback callback (Some e) VUndefined].
Proof.
  intros Hnull He. rewrite handler_run by assumption.
  eexists. split; [reflexivity|]. simpl.
  unfold completion, SplunkLogging.failure. now rewrite He.
Qed.

Lemma handler_transport_error_reported_witness :
  exists w',
    handler (VObject 1%positive) Sample.context 7%nat
      {| err := Some (Error "socket hang up" None); resp := Some 200;
         body := Some {| text := "Success"; code := 0 |} |} Sample.w0
    = (Ok tt, w') /\
    trace w'
    = trace Sample.w0
      ++ submission (VObject 1%positive) Sample.context 7%nat (heap Sample.w0)
      ++ [Flush;
          Post (queue (logger Sample.w0)
                ++ [queued (VObject 1%positive) Sample.context]);
          ConsoleLog [LStr "error"; LError (Error "socket hang up" None);
                      LStr "context";
                      LPayload (queue (logger Sample.w0)
                                ++ [queued (VObject 1%positive) Sample.context])];
          Callback 7%nat (Some (Error "socket hang up" None)) VUndefined].
Proof.
  apply (handler_transport_error_reported (VObject 1%positive) Sample.context 7%nat
           {| err := Some (Error "socket hang up" None); resp := Some 200;
              body := Some {| text := "Success"; code := 0 |} |}
           (Error "socket hang up" None) Sample.w0);
    [discriminate | reflexivity].
Defined.

(** X2. A flush that reports neither an error nor a response body counts as
    a success: the (missing) response is printed and the event is echoed. *)
Theorem handler_missing_body_is_success (event : value) (context : Context)
    (callback : callback_id) (r : FlushResult) (w : world) :
  event <> VNull -> err r = None -> body r = None ->
  exists w',
    handler event context callback r w = (Ok tt, w') /\
    trace w'
    = trace w
      ++ submission event context callback (heap w)
      ++ [Flush; Post (queue (logger w) ++ [queued event context]);
          ConsoleLog [LStr "Response from Splunk:"; LResponse None];
          Callback callback None event].
Proof.
  intros Hnull He Hb. rewrite handler_run by assumption.
  eexists. split; [reflexivity|]. simpl.
  unfold completion, SplunkLogging.failure. now rewrite He, Hb.
Qed.

Lemma handler_missing_body_is_success_witness :
  exists w',
    handler (VString "ping") Sample.context 7%nat
      {| err := None; resp := Some 200; body := None |} Sample.w0
    = (Ok tt, w') /\
    trace w'
    = trace Sample.w0
      ++ submission (VString "ping") Sample.context 7%nat (heap Sample.w0)
      ++ [Flush;
          Post (queue (logger Sample.w0) ++ [queued (VString "ping") Sample.context]);
          ConsoleLog [LStr "Response from Splunk:"; LResponse None];
          Callback 7%nat None (VString "ping")].
Proof.
  apply (handler_missing_body_is_success (VString "ping") Sample.context 7%nat
           {| err := None; resp := Some 200; body := None |} Sample.w0);
    [discriminate | reflexivity | reflexivity].
Defined.


(** X4. The callback given to [logger.flush] stays silent on a failure; the
    failure is reported by whatever [logger.error] holds when the flush
    completes. With the handler of another callback installed, it is that
    other callback that receives the error, after the print, and the
    callback captured by the flush callback is not called. *)
Theorem flush_failure_goes_to_installed_hook (event : value)
    (cb cb' : callback_id) (r : FlushResult) (e : js_error) (w : world) :
  error (logger w) = LambdaError cb' ->
  SplunkLogging.failure r = Some e ->
  flush_callback event cb r w = (Ok tt, w) /\
  exists w',
    SplunkLogging.flush r (flush_callback event cb) w = (Ok tt, w') /\
    queue (logger w') = [] /\
    heap w' = heap w /\
    trace w'
    = trace w
      ++ [Flush; Post (queue (logger w));
          ConsoleLog [LStr "error"; LError e; LStr "context";
                      LPayload (queue (logger w))];
          Callback cb' (Some e) VUndefined].
Proof.
  intros Hhook Hfail. destruct w as [h [cfg f eh q] tr]. simpl in Hhook. subst eh.
  destruct r as [[e0|] rs [[t c]|]]; unfold SplunkLogging.failure in Hfail;
    simpl in Hfail; try discriminate Hfail.
  1,2: injection Hfail as <-; split; [reflexivity|];
       eexists; split; [reflexivity|]; simpl;
       rewrite <- ?app_assoc; repeat split; reflexivity.
  destruct (Z.eqb c 0) eqn:Ec; [discriminate Hfail|]. injection Hfail as <-.
  split.
  - unfold flush_callback. simpl. now rewrite Ec.
  - unfold SplunkLogging.flush, SplunkLogging.failure, flush_callback,
      apply_error, lambda_error. run_js. rewrite Ec. simpl.
    eexists. split; [reflexivity|]. simpl.
    rewrite <- ?app_assoc. repeat split; reflexivity.
Qed.

Lemma flush_failure_goes_to_installed_hook_witness :
  flush_callback (VObject 1%positive) 8%nat Sample.rejected
    (snd (configureLogger Sample.context 7%nat Sample.w0))
  = (Ok tt, snd (configureLogger Sample.context 7%nat Sample.w0)) /\
  exists w',
    SplunkLogging.flush Sample.rejected (flush_callback (VObject 1%positive) 8%nat)
      (snd (configureLogger Sample.context 7%nat Sample.w0))
    = (Ok tt, w') /\
    queue (logger w') = [] /\
    heap w' = heap (snd (configureLogger Sample.context 7%nat Sample.w0)) /\
    trace w'
    = trace (snd (configureLogger Sample.context 7%nat Sample.w0))
      ++ [Flush;
          Post (queue (logger (snd (configureLogger Sample.context 7%nat Sample.w0))));
          ConsoleLog [LStr "error";
                      LError (Error "Invalid data format" (Some 1));
                      LStr "context";
                      LPayload (queue (logger (snd (configureLogger Sample.context
                                                      7%nat Sample.w0))))];
          Callback 7%nat (Some (Error "Invalid data format" (Some 1))) VUndefined].
Proof.
  apply (flush_failure_goes_to_installed_hook (VObject 1%positive) 8%nat 7%nat
           Sample.rejected (Error "Invalid data format" (Some 1))
           (snd (configureLogger Sample.context 7%nat Sample.w0)));
    reflexivity.
Defined.

(** X5. On every event but [null] the formatter returns its argument and
    only ever adds: the logger and the interactions are as before, every
    object other than the event is as before, and every property any object
    had keeps its value. *)
Theorem eventFormatter_only_adds (context : Context) (event : value) (w : world) :
  event <> VNull ->
  exists w',
    lambda_eventFormatter context event w = (Ok event, w') /\
    logger w' = logger w /\
    trace w' = trace w /\
    (forall l, VObject l <> event -> heap w' !! l = heap w !! l) /\
    (forall l k v, get_own (deref (heap w) l) k = Some v ->
                   get_own (deref (heap w') l) k = Some v).
Proof.
  intros Hnull. rewrite eventFormatter_returns by assumption.
  eexists. split; [reflexivity|]. simpl.
  split; [reflexivity|]. split; [reflexivity|].
  destruct event as [| |b|n|s|l0]; simpl; try (split; intros; assumption || reflexivity).
  destruct (has_own (deref (heap w) l0) "awsRequestId") eqn:Hown.
  - split; intros; assumption || reflexivity.
  - split.
    + intros l Hl. apply lookup_insert_ne. congruence.
    + intros l k v Hget. destruct (decide (l0 = l)) as [<-|Hne].
      * rewrite deref_insert.
        destruct (String.eqb_spec "awsRequestId" k) as [<-|Hk].
        -- rewrite (has_own_false_get _ _ Hown) in Hget. discriminate.
        -- now rewrite get_own_set_own_other.
      * now rewrite deref_insert_ne.
Qed.

Lemma eventFormatter_only_adds_witness :
  exists w',
    lambda_eventFormatter Sample.context (VObject 1%positive) Sample.w0
    = (Ok (VObject 1%positive), w') /\
    logger w' = logger Sample.w0 /\
    trace w' = trace Sample.w0 /\
    (forall l, VObject l <> VObject 1%positive -> heap w' !! l = heap Sample.w0 !! l) /\
    (forall l k v, get_own (deref (heap Sample.w0) l) k = Some v ->
                   get_own (deref (heap w') l) k = Some v).
Proof.
  apply (eventFormatter_only_adds Sample.context (VObject 1%positive) Sample.w0).
  discriminate.
Defined.

(** X6. A boolean, a number or a string goes through the whole handler as
    it is: the handler returns normally, the store is not touched and the
    batch handed to the transport ends with a record that carries the event
    itself with the fixed metadata. *)
Theorem handler_scalar_forwarded (event : value) (context : Context)
    (callback : callback_id) (r : FlushResult) (w : world) :
  typeof event = "boolean" \/ typeof event = "number" \/ typeof event = "string" ->
  exists w',
    handler event context callback r w = (Ok tt, w') /\
    heap w' = heap w /\
    posts (trace w')
    = posts (trace w)
      ++ [queue (logger w)
          ++ [{| body_event := event;
                 body_metadata := metadata (outbound_record event context) |}]].
Proof.
  intros Hty.
  assert (Hnull : event <> VNull).
  { intros ->. simpl in Hty. destruct Hty as [H|[H|H]]; discriminate H. }
  rewrite handler_run by assumption.
  eexists. split; [reflexivity|]. simpl. split.
  - destruct event; try reflexivity.
    simpl in Hty. destruct Hty as [H|[H|H]]; discriminate H.
  - rewrite posts_app. simpl. f_equal.
    unfold completion. destruct (SplunkLogging.failure r); reflexivity.
Qed.

Lemma handler_scalar_forwarded_witness :
  exists w',
    handler (VNumber 42) Sample.context 7%nat Sample.success Sample.w0 = (Ok tt, w') /\
    heap w' = heap Sample.w0 /\
    posts (trace w')
    = posts (trace Sample.w0)
      ++ [queue (logger Sample.w0)
          ++ [{| body_event := VNumber 42;
                 body_metadata := metadata (outbound_record (VNumber 42) Sample.context) |}]].
Proof.
  apply (handler_scalar_forwarded (VNumber 42) Sample.context 7%nat
           Sample.success Sample.w0).
  right. left. reflexivity.
Defined.

Lemma called_app (t1 t2 : list effect) : called (t1 ++ t2) = called t1 ++ called t2.
Proof.
  induction t1 as [|e t1 IH]; simpl; [reflexivity|].
  destruct e; simpl; now rewrite IH.
Qed.

Lemma invoke_called (w : world) (i : Invocation) :
  called (trace (invoke w i)) = called (trace w)
  \/ called (trace (invoke w i)) = called (trace w) ++ [inv_callback i].
Proof.
  unfold invoke. destruct i as [ev c cb r]; simpl.
  destruct (value_eq_dec ev VNull) as [->|Hnull].
  - left. rewrite handler_null. simpl. rewrite called_app. simpl.
    now rewrite app_nil_r.
  - right. rewrite handler_run by assumption. simpl. rewrite called_app.
    f_equal. unfold completion.
    destruct ev; try contradiction;
      destruct (SplunkLogging.failure r); reflexivity.
Qed.

(** X7. Over any sequence of invocations served by one process, whatever
    hooks were on the logger at the start, the completion callbacks that are
    called form, in order, a subsequence of the invocations' own callbacks:
    an invocation calls no callback but its own, calls it at most once, and
    the callback of an earlier invocation is never called by a later one. *)
Theorem serve_calls_only_own_callbacks (invs : list Invocation) (w : world) :
  exists l,
    called (trace (serve invs w)) = called (trace w) ++ l /\
    sublist l (map inv_callback invs).
Proof.
  unfold serve. revert w. induction invs as [|i invs IH]; intros w; simpl.
  - exists []. split; [now rewrite app_nil_r|constructor].
  - destruct (IH (invoke w i)) as [l [Hl Hsub]].
    destruct (invoke_called w i) as [H|H]; rewrite H in Hl.
    + exists l. split; [exact Hl|]. now apply sublist_cons.
    + exists (inv_callback i :: l). split.
      * now rewrite Hl, <- app_assoc.
      * now apply sublist_skip.
Qed.

(** X9. What an invocation returns, the store and the logger it leaves and
    the interactions it adds depend on the store, the configuration and the
    queue it finds, not on the hooks a previous invocation left on the
    logger nor on the earlier interactions. *)
Theorem handler_ignores_stale_hooks (event : value) (context : Context)
    (callback : callback_id) (r : FlushResult) (w1 w2 : world) :
  heap w1 = heap w2 ->
  config (logger w1) = config (logger w2) ->
  queue (logger w1) = queue (logger w2) ->
  fst (handler event context callback r w1) = fst (handler event context callback r w2) /\
  heap (snd (handler event context callback r w1))
  = heap (snd (handler event context callback r w2)) /\
  logger (snd (handler event context callback r w1))
  = logger (snd (handler event context callback r w2)) /\
  exists new,
    trace (snd (handler event context callback r w1)) = trace w1 ++ new /\
    trace (snd (handler event context callback r w2)) = trace w2 ++ new.
Proof.
  intros Hh Hc Hq. destruct (value_eq_dec event VNull) as [->|Hnull].
  - rewrite !handler_null. simpl. unfold rebound. rewrite Hh, Hc, Hq.
    repeat (split; [reflexivity|]). eexists. split; reflexivity.
  - rewrite !handler_run by assumption. simpl. unfold rebound. rewrite Hh, Hc, Hq.
    repeat (split; [reflexivity|]). eexists. split; reflexivity.
Qed.

Lemma handler_ignores_stale_hooks_witness :
  fst (handler (VObject 1%positive) Sample.context 7%nat Sample.success Sample.w0)
  = fst (handler (VObject 1%positive) Sample.context 7%nat Sample.success
           after_failed_invocation) /\
  heap (snd (handler (VObject 1%positive) Sample.context 7%nat Sample.success Sample.w0))
  = heap (snd (handler (VObject 1%positive) Sample.context 7%nat Sample.success
                 after_failed_invocation)) /\
  logger (snd (handler (VObject 1%positive) Sample.context 7%nat Sample.success
                 Sample.w0))
  = logger (snd (handler (VObject 1%positive) Sample.context 7%nat Sample.success
                   after_failed_invocation)) /\
  exists new,
    trace (snd (handler (VObject 1%positive) Sample.context 7%nat Sample.success
                  Sample.w0))
    = trace Sample.w0 ++ new /\
    trace (snd (handler (VObject 1%positive) Sample.context 7%nat Sample.success
                  after_failed_invocation))
    = trace after_failed_invocation ++ new.
Proof.
  apply (handler_ignores_stale_hooks (VObject 1%positive) Sample.context 7%nat
           Sample.success Sample.w0 after_failed_invocation);
    reflexivity.
Defined.

(** X10. The only thing the handler does to the store is what the formatter
    does to the event: for every event, state and answer, the store after
    the invocation is the store after formatting the event alone (for the
    event [null], the store as it was). *)
Theorem handler_store_is_formatter_store (event : value) (context : Context)
    (callback : callback_id) (r : FlushResult) (w : world) :
  heap (snd (handler event context callback r w))
  = heap (snd (lambda_eventFormatter context event w)).
Proof.
  destruct (value_eq_dec event VNull) as [->|Hnull].
  - now rewrite handler_null, eventFormatter_null.
  - now rewrite handler_run, eventFormatter_returns by assumption.
Qed.
